(** * Portfolio site: the Uses page, the About page's social links and
      the article pages, as a shallow embedding of their JSX.

    The pages are React function components.  A component is a function
    from a props object to an element tree; an element tree is a
    JavaScript value.  The embedding keeps both as they are in the
    source: props are objects with string keys (a missing key reads as
    [undefined]), elements carry their type and their props, and
    [children] is one more prop. *)

From Stdlib Require Import String Ascii List Bool Arith Lia Permutation.
Import ListNotations.
Open Scope string_scope.
Open Scope list_scope.

(* ================================================================= *)
(** ** JavaScript values and objects *)

(** What stands at the head of an element: a host tag such as [li], a
    component that is referred to by name, a fragment [<>...</>], or
    something that is neither (an element whose type expression
    evaluated to [undefined], which React refuses to render). *)
Inductive etype : Type :=
| Host (tag : string)
| Comp (name : string)
| Fragment
| Invalid.

#[warnings="-register-all"]
Inductive jsval : Type :=
| JUndefined
| JStr (s : string)
| JRef (name : string)
| JObj (fields : list (string * jsval))
| JArr (items : list jsval)
| JElem (ty : etype) (props : list (string * jsval)).

Definition object : Type := list (string * jsval).

(** [o.k]: a key that is absent reads as [undefined]. *)
Fixpoint get (k : string) (o : object) : jsval :=
  match o with
  | [] => JUndefined
  | (k', v) :: o' => if String.eqb k k' then v else get k o'
  end.

(** [o.k = v]: an existing key keeps its place, a new one goes last. *)
Fixpoint set (k : string) (v : jsval) (o : object) : object :=
  match o with
  | [] => [(k, v)]
  | (k', v') :: o' =>
      if String.eqb k k' then (k, v) :: o' else (k', v') :: set k v o'
  end.

(** [{...dst, ...src}] *)
Definition spread (src dst : object) : object :=
  fold_left (fun acc kv => set (fst kv) (snd kv) acc) src dst.

(** The rest of a destructuring pattern [{ k, ...rest }]. *)
Definition omit (k : string) (o : object) : object :=
  filter (fun kv => negb (String.eqb (fst kv) k)) o.

(** The type of [<X ... />] when [X] is a variable holding [v]. *)
Definition element_type (v : jsval) : etype :=
  match v with
  | JRef n => Comp n
  | JStr s => Host s
  | _ => Invalid
  end.

(** [React.createElement(ty, attrs, ...children)]: no child leaves
    [children] unset, one child is stored as it is, several as an
    array. *)
Definition jsx (ty : etype) (attrs : object) (children : list jsval) : jsval :=
  JElem ty
    (match children with
     | [] => attrs
     | [c] => set "children" c attrs
     | cs => set "children" (JArr cs) attrs
     end).

(** [clsx(a, b)] on the two kinds of argument the pages pass: strings
    and [undefined].  Falsy arguments are skipped, the others joined by
    one space.  The library also flattens arrays and objects; these are
    not covered, and every statement below that reads a class off
    [clsx] is about a [className] that is a string or [undefined]. *)
Definition clsx (args : list jsval) : string :=
  String.concat " "
    (flat_map (fun v => match v with
                        | JStr s => if String.eqb s "" then [] else [s]
                        | _ => []
                        end) args).

(* ================================================================= *)
(** ** Outcomes of rendering *)

Inductive outcome (A : Type) : Type :=
| Returned (a : A)
| Thrown (msg : string)
| OutOfFuel.
Arguments Returned {A} a.
Arguments Thrown {A} msg.
Arguments OutOfFuel {A}.

Definition bind {A B : Type} (m : outcome A) (f : A -> outcome B) : outcome B :=
  match m with
  | Returned a => f a
  | Thrown msg => Thrown msg
  | OutOfFuel => OutOfFuel
  end.

Notation "x <- m ;; k" := (bind m (fun x => k))
  (at level 61, m at next level, right associativity).

Fixpoint mapM {A B : Type} (f : A -> outcome B) (l : list A) : outcome (list B) :=
  match l with
  | [] => Returned []
  | a :: l' => b <- f a ;; bs <- mapM f l' ;; Returned (b :: bs)
  end.

Definition is_returned {A : Type} (m : outcome A) : bool :=
  match m with Returned _ => true | _ => false end.

Definition is_thrown {A : Type} (m : outcome A) : bool :=
  match m with Thrown _ => true | _ => false end.

Section Rendering.

(** The components whose bodies are known, by name.  A component that
    is not in the table stays in the tree as a node of its own. *)
Variable components : string -> option (object -> jsval).

(** One rendering step at the root: React calls the component with
    the element's props. *)
Definition invoke (el : jsval) : outcome jsval :=
  match el with
  | JElem Invalid _ => Thrown "Element type is invalid"
  | JElem (Comp name) o =>
      match components name with
      | Some f => Returned (f o)
      | None => Returned el
      end
  | _ => Returned el
  end.

(** Rendering to the end: known components are called, and what they
    return is rendered in turn; everything else keeps its place and
    has its children rendered.  Children that are neither elements nor
    arrays are handed on as they are: what becomes of them is decided
    where they land.  Below a component that is not in the table that
    is the component's business; below a host element React accepts
    text and [undefined] and refuses a plain object, so the statements
    about the children of a host element are made for text and
    [undefined] only. *)
Fixpoint expand (fuel : nat) (v : jsval) : outcome jsval :=
  match fuel with
  | O => OutOfFuel
  | S n =>
      let inside (ty : etype) (o : object) :=
        o' <- mapM (fun kv =>
                      if String.eqb (fst kv) "children"
                      then c <- expand n (snd kv) ;; Returned (fst kv, c)
                      else Returned kv) o ;;
        Returned (JElem ty o') in
      match v with
      | JElem Invalid _ => Thrown "Element type is invalid"
      | JElem (Comp name) o =>
          match components name with
          | Some f => expand n (f o)
          | None => inside (Comp name) o
          end
      | JElem ty o => inside ty o
      | JArr items => items' <- mapM (expand n) items ;; Returned (JArr items')
      | _ => Returned v
      end
  end.

(** The body of [expand] at an element that stays in the tree. *)
Definition expand_inside (n : nat) (ty : etype) (o : object) : outcome jsval :=
  o' <- mapM (fun kv =>
                if String.eqb (fst kv) "children"
                then c <- expand n (snd kv) ;; Returned (fst kv, c)
                else Returned kv) o ;;
  Returned (JElem ty o').

End Rendering.

(* ================================================================= *)
(** ** Walking a tree *)

(** All elements whose type satisfies [ty], in document order, each
    with its props.  The walk follows [children] only and does not go
    below a match. *)
Fixpoint elements_of (ty : etype -> bool) (v : jsval) {struct v} : list object :=
  match v with
  | JElem t o =>
      if ty t then [o]
      else (fix fields (l : list (string * jsval)) : list object :=
              match l with
              | [] => []
              | (k, x) :: l' =>
                  (if String.eqb k "children" then elements_of ty x else [])
                  ++ fields l'
              end) o
  | JArr items =>
      (fix each (l : list jsval) : list object :=
         match l with
         | [] => []
         | x :: l' => elements_of ty x ++ each l'
         end) items
  | _ => []
  end.

Definition is_comp (name : string) (t : etype) : bool :=
  match t with Comp n => String.eqb n name | _ => false end.

(** Does the string [s] occur as a value anywhere in [v]: as a text
    child, as an attribute, as a reference, or inside one of them? *)
Fixpoint mentions (s : string) (v : jsval) {struct v} : bool :=
  let fix fields (l : list (string * jsval)) : bool :=
    match l with
    | [] => false
    | (_, x) :: l' => mentions s x || fields l'
    end in
  match v with
  | JUndefined => false
  | JStr s' => String.eqb s s'
  | JRef s' => String.eqb s s'
  | JObj o => fields o
  | JElem _ o => fields o
  | JArr items =>
      (fix each (l : list jsval) : bool :=
         match l with
         | [] => false
         | x :: l' => mentions s x || each l'
         end) items
  end.

(** The props of an element. *)
Definition props_of (v : jsval) : object :=
  match v with JElem _ o => o | _ => [] end.

(** [k in o] *)
Definition has_key (k : string) (o : object) : bool :=
  existsb (String.eqb k) (map fst o).

(** An object as JavaScript has it: no key twice. *)
Definition well_formed (o : object) : Prop := NoDup (map fst o).

(** Values that [expand] hands on as they are: text, [undefined],
    references and plain data; no element and no array.  Used for what
    is passed to a component; see [text_value] for what a host element
    may hold. *)
Definition plain (v : jsval) : bool :=
  match v with
  | JElem _ _ | JArr _ => false
  | _ => true
  end.

(** What [props.children] holds for the children written between the
    tags of an element. *)
Definition children_value (cs : list jsval) : jsval :=
  match cs with
  | [] => JUndefined
  | [c] => c
  | _ => JArr cs
  end.

(** A prop that is a string when it is given and [undefined] when it is
    not: the text between the tags of an element, an [href], a
    [className]. *)
Definition text_value (t : option string) : jsval :=
  match t with
  | Some s => JStr s
  | None => JUndefined
  end.

(** At how many places does [s] begin in [t]? *)
Fixpoint count_in (s t : string) : nat :=
  (if String.prefix s t then 1 else 0)
  + match t with
    | EmptyString => 0
    | String _ t' => count_in s t'
    end.

(** At how many places does [s] occur in the text of [v]: in [v] itself
    when it is a string, and in the children of its elements. *)
Fixpoint text_occurrences (s : string) (v : jsval) {struct v} : nat :=
  match v with
  | JStr t => count_in s t
  | JElem _ o =>
      (fix fields (l : list (string * jsval)) : nat :=
         match l with
         | [] => 0
         | (k, x) :: l' =>
             (if String.eqb k "children" then text_occurrences s x else 0)
             + fields l'
         end) o
  | JArr items =>
      (fix each (l : list jsval) : nat :=
         match l with
         | [] => 0
         | x :: l' => text_occurrences s x + each l'
         end) items
  | _ => 0
  end.

(* ================================================================= *)
(** ** [src/pages/uses.jsx] *)

Module UsesPage.

(** [function ToolsSection({ children, ...props })] *)
Definition ToolsSection (props0 : object) : jsval :=
  let children := get "children" props0 in
  let props := omit "children" props0 in
  jsx (Comp "Section") (spread props [])
    [ jsx (Host "ul") [("role", JStr "list"); ("className", JStr "space-y-16")]
        [ children ] ].

(** [function Tool({ title, href, children })] *)
Definition Tool (props : object) : jsval :=
  let title := get "title" props in
  let href := get "href" props in
  let children := get "children" props in
  jsx (Comp "Card") [("as", JStr "li")]
    [ jsx (Comp "Card.Title")
        [("as", JStr "h3"); ("href", href);
         ("target", JStr "_blank"); ("rel", JStr "noopener noreferrer")]
        [ title ];
      jsx (Comp "Card.Description") [] [ children ] ].

(** The [<Tool ...>] and [<ToolsSection ...>] elements of the page, in
    the order of the source.  JSX text is one string: its lines are
    trimmed and joined by single spaces. *)
Definition tool_MacBook_Pro : jsval :=
  jsx (Comp "Tool")
      [("title", JStr "16” MacBook Pro, M2, 32GB RAM (2022)");
       ("href", JStr "https://www.apple.com/au/shop/buy-mac/macbook-pro/16-inch")]
      [ JStr "I was using an Intel-based 16” MacBook Pro prior to this and the difference is night and day. I’ve never heard the fans turn on a single time, even under the incredibly heavy loads I put it through with our various launch simulations." ].

Definition tool_AirPods_Max : jsval :=
  jsx (Comp "Tool")
      [("title", JStr "AirPods Max");
       ("href", JStr "https://www.apple.com/au/airpods-max/")]
      [ JStr "Music plays a vital role in my daily routine, whether I`m working on complex coding challenges or diving into an engaging study session. With my AirPods Max, I`m enveloped in my favorite melodies and tunes. They create a personal soundscape that fosters my focus and enhances my productivity, turning work and study hours into an enjoyable journey." ].

Definition tool_PyCharm_Professional : jsval :=
  jsx (Comp "Tool")
      [("title", JStr "PyCharm Professional");
       ("href", JStr "https://www.jetbrains.com/pycharm/");
       ("target", JStr "_blank");
       ("rel", JStr "noopener noreferrer")]
      [ JStr "As a software developer, I need a robust and reliable IDE, and PyCharm Professional hits the mark. Its intelligent code assistance and extensive range of handy features streamline my coding workflow, making it easier to write, debug, and refactor Python code. The overall result? A significant boost in productivity and a smoother coding experience." ].

Definition tool_DataGrip : jsval :=
  jsx (Comp "Tool")
      [("title", JStr "DataGrip");
       ("href", JStr "https://www.jetbrains.com/datagrip/")]
      [ JStr "Managing databases is an integral part of my work, and DataGrip is my go-to tool for that. It supports various databases and provides smart code completion, on-the-fly error detection, and even version control system integration. It`s more than just a database tool - it`s a comprehensive solution that makes handling databases intuitive and hassle-free." ].

Definition tool_iTerm2 : jsval :=
  jsx (Comp "Tool")
      [("title", JStr "iTerm2");
       ("href", JStr "https://iterm2.com/")]
      [ JStr "iTerm2 enhances my command-line experience with its array of powerful features. The split-pane views, search functionality, and extensive customization options it provides all contribute to a superior terminal experience. Whether it`s scripting or running development servers, iTerm2 proves itself as an invaluable asset in my toolkit." ].

Definition tool_Figma : jsval :=
  jsx (Comp "Tool")
      [("title", JStr "Figma");
       ("href", JStr "https://www.figma.com/")]
      [ JStr "When it comes to design tools, Figma has become my go-to. Beyond just a design tool, it`s our virtual whiteboard for brainstorming, prototyping, and collaboration. The seamless real-time collaboration feature is a game-changer, enabling us to work together on designs no matter where we are." ].

Definition tool_MidJourney_AI : jsval :=
  jsx (Comp "Tool")
      [("title", JStr "MidJourney AI");
       ("href", JStr "https://www.midjourney.com/home/?callbackUrl=%2Fapp%2F")]
      [ JStr "When I need original, creative images and graphics for my apps, MidJourney AI is my go-to tool. It`s like having a personal graphic designer at my disposal. Its AI capabilities help me to generate stunning visuals that are unique and resonate with my user base." ].

Definition tool_Trello : jsval :=
  jsx (Comp "Tool")
      [("title", JStr "Trello");
       ("href", JStr "https://trello.com")]
      [ JStr "Trello is my go-to task management and project collaboration tool. Its intuitive board, list, and card interface allows me to organize and prioritize my tasks and projects effectively. With features like due dates, checklists, labels, and integrations, Trello helps me stay on top of my work and collaborate with team members seamlessly." ].

Definition tool_ChatGPT : jsval :=
  jsx (Comp "Tool")
      [("title", JStr "ChatGPT");
       ("href", JStr "https://chat.openai.com/")]
      [ JStr "I find ChatGPT incredibly useful for brainstorming, code review, and as a writing assistant. It`s like having an AI-powered co-worker who`s always ready to provide insights and assist with the development process. It really has become an essential part of my productivity toolkit." ].

Definition section_Workstation : jsval :=
  jsx (Comp "ToolsSection") [("title", JStr "Workstation")]
      [ tool_MacBook_Pro; tool_AirPods_Max ].

Definition section_Development_tools : jsval :=
  jsx (Comp "ToolsSection") [("title", JStr "Development tools")]
      [ tool_PyCharm_Professional; tool_DataGrip; tool_iTerm2 ].

Definition section_Design : jsval :=
  jsx (Comp "ToolsSection") [("title", JStr "Design")]
      [ tool_Figma; tool_MidJourney_AI ].

Definition section_Productivity : jsval :=
  jsx (Comp "ToolsSection") [("title", JStr "Productivity")]
      [ tool_Trello; tool_ChatGPT ].

(** [export default function Uses()].  The block between [{/*] and
    [*/}] after the fourth section is a JSX comment: an empty
    expression, which is no child at all. *)
Definition Uses (_ : object) : jsval :=
  jsx Fragment []
    [ jsx (Comp "Head") []
        [ jsx (Host "title") [] [ JStr "Uses - My favourite tools" ];
          jsx (Host "meta")
            [("name", JStr "description");
             ("content", JStr "Software I use, gadgets I love, and other things I recommend.")] [] ];
      jsx (Comp "SimpleLayout")
        [("title", JStr "Software I use, gadgets I love, and other things I recommend.");
         ("intro", JStr "I get asked a lot about the things I use to build software, stay productive, or buy to fool myself into thinking I’m being productive when I’m really just procrastinating. Here’s a big list of all of my favorite stuff.")]
        [ jsx (Host "div") [("className", JStr "space-y-20")]
            [ section_Workstation;
              section_Development_tools;
              section_Design;
              section_Productivity ] ] ].

(** What the JSX comment holds: the title of the section that is
    commented out, and the titles and texts of its four entries. *)
Definition commented_out : list string :=
  [ "Books";
    "Joys of Compounding";
    "It’s not the newest kid on the block but it’s still the fastest. The Sublime Text of the application launcher world.";
    "The Pragmatic Programmer";
    "Using a daily notes system instead of trying to keep things organized by topics has been super powerful for me. And with Reflect, it’s still easy for me to keep all of that stuff discoverable by topic even though all of my writing happens in the daily note.";
    "ReWork";
    "Great tool for scheduling meetings while protecting my calendar and making sure I still have lots of time for deep work during the week.";
    "Incerto";
    "Simple tool for blocking distracting websites when I need to just do the work and get some momentum going." ].

(** The components this file defines. *)
Definition components (name : string) : option (object -> jsval) :=
  if String.eqb name "ToolsSection" then Some ToolsSection
  else if String.eqb name "Tool" then Some Tool
  else if String.eqb name "Uses" then Some Uses
  else None.

Definition page : jsval := jsx (Comp "Uses") [] [].

End UsesPage.

(* ================================================================= *)
(** ** The About page: [SocialLink] and its five uses *)

Module AboutPage.

(** [function SocialLink({ className, href, children, icon: Icon })] *)
Definition SocialLink (props : object) : jsval :=
  let className := get "className" props in
  let href := get "href" props in
  let children := get "children" props in
  let Icon := get "icon" props in
  jsx (Host "li") [("className", JStr (clsx [className; JStr "flex"]))]
    [ jsx (Comp "Link")
        [("href", href);
         ("target", JStr "_blank");
         ("rel", JStr "noopener noreferrer");
         ("className", JStr "group flex text-sm font-medium text-zinc-800 transition hover:text-teal-500 dark:text-zinc-200 dark:hover:text-teal-500")]
        [ jsx (element_type Icon)
            [("className", JStr "h-6 w-6 flex-none fill-zinc-500 transition group-hover:fill-teal-500")] [];
          jsx (Host "span") [("className", JStr "ml-4")] [ children ] ] ].

(** [function MailIcon(props)] *)
Definition MailIcon (props : object) : jsval :=
  jsx (Host "svg")
    (spread props [("viewBox", JStr "0 0 24 24"); ("aria-hidden", JStr "true")])
    [ jsx (Host "path")
        [("fillRule", JStr "evenodd");
         ("d", JStr "M6 5a3 3 0 0 0-3 3v8a3 3 0 0 0 3 3h12a3 3 0 0 0 3-3V8a3 3 0 0 0-3-3H6Zm.245 2.187a.75.75 0 0 0-.99 1.126l6.25 5.5a.75.75 0 0 0 .99 0l6.25-5.5a.75.75 0 0 0-.99-1.126L12 12.251 6.245 7.187Z")]
        [] ].

(** The [<SocialLink ...>] elements of [About], in source order. *)
Definition social_links : list jsval :=
  [ jsx (Comp "SocialLink")
      [("href", JStr "https://twitter.com/IbrahimSaidi94");
       ("icon", JRef "TwitterIcon")]
      [ JStr "Follow on Twitter" ];
    jsx (Comp "SocialLink")
      [("href", JStr "https://medium.com/@ibrahimsaidi94");
       ("icon", JRef "MediumIcon");
       ("className", JStr "mt-4")]
      [ JStr "Follow on Medium" ];
    jsx (Comp "SocialLink")
      [("href", JStr "https://github.com/Saidiibrahim");
       ("icon", JRef "GitHubIcon");
       ("className", JStr "mt-4")]
      [ JStr "Follow on GitHub" ];
    jsx (Comp "SocialLink")
      [("href", JStr "https://www.linkedin.com/in/ibrahimsaidi/");
       ("icon", JRef "LinkedInIcon");
       ("className", JStr "mt-4")]
      [ JStr "Follow on LinkedIn" ];
    jsx (Comp "SocialLink")
      [("href", JStr "mailto:ibrahim.aka.ajax@gmail.com");
       ("icon", JRef "MailIcon");
       ("className", JStr "mt-8 border-t border-zinc-100 pt-8 dark:border-zinc-700/40")]
      [ JStr "ibrahim.aka.ajax@gmail.com" ] ].

Definition components (name : string) : option (object -> jsval) :=
  if String.eqb name "SocialLink" then Some SocialLink
  else if String.eqb name "MailIcon" then Some MailIcon
  else None.

End AboutPage.

(* ================================================================= *)
(** ** The article pages *)

Module Articles.

(** [export default (props) => <ArticleLayout meta={meta} {...props} />]:
    the same line in every article, each with its own [meta].  The
    spread comes after [meta]. *)
Definition default_export (meta : jsval) (props : object) : jsval :=
  jsx (Comp "ArticleLayout") (spread props [("meta", meta)]) [].

Module FirstMachineLearningProject.
Definition meta : jsval :=
  JObj [("author", JStr "Ibrahim");
        ("date", JStr "2022-01-29");
        ("title", JStr "Your First Machine Learning Project in Python");
        ("description", JStr "Most companies try to stay ahead of the curve when it comes to visual design, but for Planetaria we needed to create a brand that would still inspire us 100 years from now when humanity has spread across our entire solar system.")].
End FirstMachineLearningProject.

Module StockScreeningApp.
Definition meta : jsval :=
  JObj [("author", JStr "Ibrahim");
        ("date", JStr "2022-08-20");
        ("title", JStr "Create a Simple Stock Screening App Using Streamlit");
        ("description", JStr "Learn to Build a Stock Screening App Using Streamlit and an API")].
End StockScreeningApp.

Module ServeAIModels.
Definition meta : jsval :=
  JObj [("author", JStr "Ibrahim Saidi");
        ("date", JStr "2022-11-04");
        ("title", JStr "How to Serve AI Models with FastAPI and Docker");
        ("description", JStr "Learn to create a containerised FastAPI app serving a HuggingFace model")].
End ServeAIModels.

(** The spec's [Article]: authorship metadata and a body. *)
Record Article : Type := {
  author : string;
  date : string;
  title : string;
  description : string;
  body : jsval
}.

(** The [meta] object an article file declares. *)
Definition meta_of (a : Article) : jsval :=
  JObj [("author", JStr (author a));
        ("date", JStr (date a));
        ("title", JStr (title a));
        ("description", JStr (description a))].

(** A rendered article page: the metadata header and the content
    region. *)
Record Page : Type := {
  header : object;
  content : jsval
}.

Definition field (k : string) (v : jsval) : jsval :=
  match v with JObj o => get k o | _ => JUndefined end.

(** Modelled from the spec: the [ArticleLayout] component, imported
    from [@/components/ArticleLayout], whose file is not among the
    sources.  "Given an Article, produce a page combining its metadata
    header (author, date, title) and its body content verbatim. The
    renderer performs no transformation of semantic content beyond
    layout placement."  The article reaches it as the props the
    default export passes on: [meta], and the body as [children]. *)
Definition ArticleLayout (props : object) : outcome Page :=
  let meta := get "meta" props in
  Returned {| header := [("author", field "author" meta);
                         ("date", field "date" meta);
                         ("title", field "title" meta)];
              content := get "children" props |}.

(** The page of an article: the default export hands the layout its
    props, with the article's body as [children]. *)
Definition render_article (a : Article) : outcome Page :=
  match default_export (meta_of a) [("children", body a)] with
  | JElem (Comp "ArticleLayout") props => ArticleLayout props
  | _ => Thrown "Element type is invalid"
  end.

(** The parts of a page, each under its label. *)
Definition slots (p : Page) : object :=
  header p ++ [("body", content p)].

(** At how many places does [s] occur on the page: in the text of each
    header part and in the text of the content. *)
Definition page_occurrences (s : string) (p : Page) : nat :=
  list_sum (map (fun kv => text_occurrences s (snd kv)) (slots p)).

(** Line 69 of the FastAPI article, inside its code listing: the line
    quotes the article's own title. *)
Definition double_quote : string := String (ascii_of_nat 34) EmptyString.

Definition quoting_line : string :=
  ("    return Response(" ++ double_quote
   ++ "<h1>How to Serve AI Models with FastAPI and Docker</h1>"
   ++ double_quote ++ ")")%string.

(** The FastAPI article, with that line for a body. *)
Definition quoting_article : Article :=
  {| author := "Ibrahim Saidi";
     date := "2022-11-04";
     title := "How to Serve AI Models with FastAPI and Docker";
     description := "Learn to create a containerised FastAPI app serving a HuggingFace model";
     body := JStr quoting_line |}.

(** The stock screening article, with its first paragraph for a
    body. *)
Definition screening_article : Article :=
  {| author := "Ibrahim";
     date := "2022-08-20";
     title := "Create a Simple Stock Screening App Using Streamlit";
     description := "Learn to Build a Stock Screening App Using Streamlit and an API";
     body := jsx (Host "p") []
               [ JStr "Imagine you’ve got some hard-earned money and want to invest it in the stock market. Being the savvy investor you are, you will only invest in companies that meet a particular standard. You don’t want your money invested in mediocre companies." ] |}.

(** A body that renders to nothing. *)
Definition empty_body (v : jsval) : bool :=
  match v with
  | JUndefined => true
  | JStr s => String.eqb s ""
  | JArr [] => true
  | _ => false
  end.

End Articles.

(* ================================================================= *)
(** ** Content items and their grouping *)

Module Content.

Record ContentItem : Type := {
  title : string;
  href : option string;
  category : string;
  body : jsval
}.

Record ContentGroup : Type := {
  name : string;
  items : list ContentItem
}.

Definition differs (c c' : string) : bool := negb (String.eqb c' c).

(** The distinct strings of a list, each at its first occurrence. *)
Fixpoint first_seen (l : list string) : list string :=
  match l with
  | [] => []
  | c :: l' => c :: filter (differs c) (first_seen l')
  end.

Definition in_category (c : string) (it : ContentItem) : bool :=
  String.eqb (category it) c.

(** Modelled from the spec: the grouping operation of section 4.1, for
    which the sources have no function (the Uses page is written out
    already grouped).  "Given an ordered sequence of ContentItem,
    partition into ContentGroup records, one per distinct category,
    preserving first-seen order of categories and within-category item
    order." *)
Definition group_by_category (l : list ContentItem) : list ContentGroup :=
  map (fun c => {| name := c; items := filter (in_category c) l |})
      (first_seen (map category l)).

(** The items of all groups, in group order. *)
Definition ungroup (gs : list ContentGroup) : list ContentItem :=
  flat_map items gs.

(** No two equal-category items are separated by an item of another
    category. *)
Fixpoint contiguous (l : list ContentItem) : bool :=
  match l with
  | [] => true
  | it :: l' =>
      match l' with
      | [] => true
      | it' :: _ =>
          (String.eqb (category it) (category it')
           || negb (existsb (in_category (category it)) l'))
          && contiguous l'
      end
  end.

(** The scenario of the spec's section 8: A and C in category X, B in
    category Y between them. *)
Definition item_A : ContentItem :=
  {| title := "A"; href := None; category := "X"; body := JUndefined |}.
Definition item_B : ContentItem :=
  {| title := "B"; href := None; category := "Y"; body := JUndefined |}.
Definition item_C : ContentItem :=
  {| title := "C"; href := None; category := "X"; body := JUndefined |}.
Definition scenario : list ContentItem := [item_A; item_B; item_C].

(** *** The Uses page as content items *)

Definition string_of (v : jsval) : string :=
  match v with JStr s => s | _ => "" end.

Definition href_of (v : jsval) : option string :=
  match v with JStr s => Some s | _ => None end.

(** The [<Tool>] elements below a [<ToolsSection>], read as items of
    the section's category. *)
Definition item_of_tool (cat : string) (tool : object) : ContentItem :=
  {| title := string_of (get "title" tool);
     href := href_of (get "href" tool);
     category := cat;
     body := get "children" tool |}.

Definition group_of_section (section : object) : ContentGroup :=
  let cat := string_of (get "title" section) in
  {| name := cat;
     items := map (item_of_tool cat)
                  (elements_of (is_comp "Tool") (get "children" section)) |}.

(** The groups as the page declares them. *)
Definition declared_groups : list ContentGroup :=
  map group_of_section
      (elements_of (is_comp "ToolsSection") (UsesPage.Uses [])).

(** The content registry: every tool of the page, in source order. *)
Definition registry : list ContentItem := ungroup declared_groups.

(** The cards of a rendered section, read back as items. *)
Definition item_of_card (cat : string) (card : object) : ContentItem :=
  let title_props :=
    match elements_of (is_comp "Card.Title") (get "children" card) with
    | o :: _ => o
    | [] => []
    end in
  let description_props :=
    match elements_of (is_comp "Card.Description") (get "children" card) with
    | o :: _ => o
    | [] => []
    end in
  {| title := string_of (get "children" title_props);
     href := href_of (get "href" title_props);
     category := cat;
     body := get "children" description_props |}.

Definition group_of_rendered_section (section : object) : ContentGroup :=
  let cat := string_of (get "title" section) in
  {| name := cat;
     items := map (item_of_card cat)
                  (elements_of (is_comp "Card") (get "children" section)) |}.

(** The groups as the rendered page shows them. *)
Definition rendered_groups (fuel : nat) : outcome (list ContentGroup) :=
  tree <- expand UsesPage.components fuel UsesPage.page ;;
  Returned (map group_of_rendered_section
                (elements_of (is_comp "Section") tree)).

End Content.

(* ================================================================= *)
(** * Properties *)

(** ** Objects *)

Lemma get_set_same (k : string) (v : jsval) (o : object) :
  get k (set k v o) = v.
Proof.
  induction o as [|[k' v'] o IH]; simpl.
  - now rewrite String.eqb_refl.
  - destruct (String.eqb k k') eqn:E; simpl; rewrite ?String.eqb_refl, ?E; auto.
Qed.

Lemma get_set_other (k k' : string) (v : jsval) (o : object) :
  k <> k' -> get k (set k' v o) = get k o.
Proof.
  intros Hne. apply String.eqb_neq in Hne.
  induction o as [|[k0 v0] o IH]; simpl.
  - now rewrite Hne.
  - destruct (String.eqb k' k0) eqn:E; simpl.
    + apply String.eqb_eq in E. subst k0. now rewrite Hne.
    + now rewrite IH.
Qed.

Lemma get_spread_absent (k : string) (src dst : object) :
  ~ In k (map fst src) -> get k (spread src dst) = get k dst.
Proof.
  unfold spread. revert dst.
  induction src as [|[k' v] src IH]; simpl; intros dst H; [reflexivity|].
  rewrite IH by tauto. apply get_set_other. intros E. apply H. now left.
Qed.

Lemma get_spread_last (k : string) (v : jsval) (src dst : object) :
  ~ In k (map fst src) -> get k (spread ((k, v) :: src) dst) = v.
Proof.
  intros H. unfold spread. simpl. fold (spread src (set k v dst)).
  rewrite get_spread_absent by exact H. apply get_set_same.
Qed.

(** The default export of an article hands its own [meta] to the layout
    unless the props it is called with name a [meta] of their own, which
    then wins: the spread comes last. *)
Lemma default_export_meta (meta : jsval) (props : object) :
  ~ In "meta" (map fst props) ->
  get "meta" (props_of (Articles.default_export meta props)) = meta.
Proof.
  intros H. unfold Articles.default_export, jsx, props_of.
  now rewrite get_spread_absent.
Qed.

Lemma default_export_meta_overridden (meta other : jsval) (props : object) :
  ~ In "meta" (map fst props) ->
  get "meta" (props_of (Articles.default_export meta (("meta", other) :: props)))
  = other.
Proof.
  intros H. unfold Articles.default_export, jsx, props_of.
  now apply get_spread_last.
Qed.

(** ** Fuel *)

Lemma mapM_mono {A B : Type} (f g : A -> outcome B) (l : list A) :
  (forall a b, f a = Returned b -> g a = Returned b) ->
  forall r, mapM f l = Returned r -> mapM g l = Returned r.
Proof.
  intros Hfg. induction l as [|a l IH]; simpl; intros r H; [exact H|].
  destruct (f a) as [b| |] eqn:Ea; simpl in H; try discriminate.
  rewrite (Hfg _ _ Ea); simpl.
  destruct (mapM f l) as [bs| |]; simpl in H; try discriminate.
  now rewrite (IH _ eq_refl).
Qed.

Section Fuel.

Variable components : string -> option (object -> jsval).

Lemma expand_S (n : nat) (v : jsval) :
  expand components (S n) v =
  match v with
  | JElem Invalid _ => Thrown "Element type is invalid"
  | JElem (Comp name) o =>
      match components name with
      | Some f => expand components n (f o)
      | None => expand_inside components n (Comp name) o
      end
  | JElem ty o => expand_inside components n ty o
  | JArr items =>
      items' <- mapM (expand components n) items ;; Returned (JArr items')
  | _ => Returned v
  end.
Proof. destruct v as [| | | | |[]]; reflexivity. Qed.

Lemma inside_mono (n : nat) :
  (forall v r, expand components n v = Returned r ->
               expand components (S n) v = Returned r) ->
  forall ty o r,
    expand_inside components n ty o = Returned r ->
    expand_inside components (S n) ty o = Returned r.
Proof.
  intros IH ty o r H. unfold expand_inside in *.
  destruct (mapM _ o) as [o'| |] eqn:E in H; simpl in H; try discriminate.
  eapply mapM_mono in E; [rewrite E; exact H|].
  intros kv b. cbv beta.
  destruct (String.eqb (fst kv) "children"); auto.
  destruct (expand components n (snd kv)) as [c| |] eqn:Ec; intros Hb;
    [rewrite (IH _ _ Ec); exact Hb | discriminate | discriminate].
Qed.

(** More fuel does not change a result. *)
Lemma expand_mono (n : nat) :
  forall v r, expand components n v = Returned r ->
              expand components (S n) v = Returned r.
Proof.
  induction n as [|n IH]; intros v r H; [discriminate|].
  rewrite expand_S in H. rewrite expand_S.
  destruct v as [| | | |items|ty o]; auto.
  - destruct (mapM (expand components n) items) as [l| |] eqn:E;
      simpl in H; try discriminate.
    now rewrite (mapM_mono _ (expand components (S n)) items IH _ E).
  - destruct ty as [tag|name| |]; auto using inside_mono.
    destruct (components name); auto using inside_mono.
Qed.

Lemma expand_enough (k n : nat) (v r : jsval) :
  expand components n v = Returned r ->
  expand components (k + n) v = Returned r.
Proof.
  intros H. induction k as [|k IH]; simpl; [exact H|].
  now apply expand_mono.
Qed.

End Fuel.

(** ** Rendering a tool, and counting text *)

(** One round of rendering at a [Tool]. *)
Lemma expand_Tool (props : object) (n : nat) :
  expand UsesPage.components (4 + n) (JElem (Comp "Tool") props)
  = t <- expand UsesPage.components n (get "title" props) ;;
    d <- expand UsesPage.components n (get "children" props) ;;
    Returned
      (JElem (Comp "Card")
         [("as", JStr "li");
          ("children",
           JArr [JElem (Comp "Card.Title")
                   [("as", JStr "h3"); ("href", get "href" props);
                    ("target", JStr "_blank");
                    ("rel", JStr "noopener noreferrer");
                    ("children", t)];
                 JElem (Comp "Card.Description") [("children", d)]])]).
Proof.
  change (4 + n) with (S (S (S (S n)))). rewrite expand_S.
  change (UsesPage.components "Tool") with (Some UsesPage.Tool). cbv iota.
  unfold UsesPage.Tool, jsx. simpl.
  destruct (expand UsesPage.components n (get "title" props)); simpl;
    try reflexivity.
  destruct (expand UsesPage.components n (get "children" props)); reflexivity.
Qed.

Lemma prefix_is_no_longer (s t : string) :
  String.prefix s t = true -> String.length s <= String.length t.
Proof.
  revert s. induction t as [|b t IH]; intros [|a s]; simpl; intros H;
    try lia; try discriminate.
  destruct (ascii_dec a b); [|discriminate]. apply IH in H. lia.
Qed.

Lemma prefix_of_itself (s : string) : String.prefix s s = true.
Proof.
  induction s as [|a s IH]; simpl; [reflexivity|].
  destruct (ascii_dec a a); [exact IH|congruence].
Qed.

Lemma count_in_shorter (s t : string) :
  String.length t < String.length s -> count_in s t = 0.
Proof.
  induction t as [|b t IH]; intros Hlen.
  - destruct s; [simpl in Hlen; lia|reflexivity].
  - change (count_in s (String b t))
      with ((if String.prefix s (String b t) then 1 else 0) + count_in s t).
    rewrite IH by (simpl in Hlen; lia).
    destruct (String.prefix s (String b t)) eqn:E; [|reflexivity].
    apply prefix_is_no_longer in E. lia.
Qed.

(** A string that is not empty occurs in itself once. *)
Lemma count_in_itself (s : string) : s <> "" -> count_in s s = 1.
Proof.
  destruct s as [|a s]; [congruence|]. intros _.
  change (count_in (String a s) (String a s))
    with ((if String.prefix (String a s) (String a s) then 1 else 0)
          + count_in (String a s) s).
  rewrite prefix_of_itself, count_in_shorter by (simpl; lia). reflexivity.
Qed.

(** ** Grouping *)

Section Grouping.

Import Content.

Lemma first_seen_In (c : string) (l : list string) :
  In c (first_seen l) <-> In c l.
Proof.
  induction l as [|d l IH]; simpl; [tauto|]. unfold differs.
  rewrite filter_In, IH, negb_true_iff, String.eqb_neq.
  destruct (String.eqb_spec d c) as [->|Hne]; [tauto|].
  split; [tauto|]. intros [H|H]; [now left|right; split; congruence].
Qed.

Lemma first_seen_NoDup (l : list string) : NoDup (first_seen l).
Proof.
  induction l as [|d l IH]; simpl; constructor.
  - unfold differs. rewrite filter_In, negb_true_iff, String.eqb_neq. tauto.
  - now apply NoDup_filter.
Qed.

Lemma filter_absent (c : string) (l : list ContentItem) :
  ~ In c (map category l) -> filter (in_category c) l = [].
Proof.
  induction l as [|it l IH]; simpl; intros H; [reflexivity|].
  unfold in_category at 1.
  destruct (String.eqb_spec (category it) c) as [E|_]; [tauto|].
  apply IH. tauto.
Qed.

Lemma filter_present (c : string) (l : list ContentItem) :
  In c (map category l) -> filter (in_category c) l <> [].
Proof.
  intros H. apply in_map_iff in H as (it & E & Hin).
  assert (Hit : In it (filter (in_category c) l)).
  { apply filter_In. split; [exact Hin|]. unfold in_category.
    now apply String.eqb_eq. }
  intros Hnil. now rewrite Hnil in Hit.
Qed.

Lemma differs_all (c : string) (l : list string) :
  ~ In c l -> filter (differs c) l = l.
Proof.
  induction l as [|d l IH]; simpl; intros H; [reflexivity|].
  unfold differs at 1.
  destruct (String.eqb_spec d c) as [E|_]; [tauto|].
  simpl. f_equal. apply IH. tauto.
Qed.

Lemma differs_head (c : string) (l : list string) :
  filter (differs c) (c :: l) = filter (differs c) l.
Proof. simpl. unfold differs at 1. now rewrite String.eqb_refl. Qed.

Lemma differs_twice (c : string) (l : list string) :
  filter (differs c) (filter (differs c) l) = filter (differs c) l.
Proof.
  apply differs_all. rewrite filter_In. unfold differs.
  rewrite String.eqb_refl. simpl. intros [_ H]. discriminate.
Qed.

Lemma flat_map_agree {A B : Type} (f g : A -> list B) (l : list A) :
  (forall a, In a l -> f a = g a) -> flat_map f l = flat_map g l.
Proof.
  induction l as [|a l IH]; simpl; intros H; [reflexivity|].
  rewrite (H a) by now left. f_equal. apply IH. auto.
Qed.

(** Grouping a list with one more item in front: the item opens the
    first group, and the other groups are those of the rest. *)
Lemma ungroup_cons (it : ContentItem) (l : list ContentItem) :
  ungroup (group_by_category (it :: l)) =
  it :: filter (in_category (category it)) l
     ++ flat_map (fun c => filter (in_category c) l)
                 (filter (differs (category it)) (first_seen (map category l))).
Proof.
  unfold ungroup, group_by_category. rewrite flat_map_concat_map, map_map.
  rewrite <- flat_map_concat_map. simpl.
  unfold in_category at 1. rewrite String.eqb_refl. simpl. f_equal. f_equal.
  apply flat_map_agree. intros c Hc.
  apply filter_In in Hc as [_ Hc]. unfold in_category at 1.
  rewrite String.eqb_sym. apply negb_true_iff in Hc. now rewrite Hc.
Qed.

Lemma ungroup_unfold (l : list ContentItem) :
  ungroup (group_by_category l) =
  flat_map (fun c => filter (in_category c) l) (first_seen (map category l)).
Proof.
  unfold ungroup, group_by_category.
  now rewrite flat_map_concat_map, map_map, <- flat_map_concat_map.
Qed.

(** Moving one key of a duplicate-free list to the front permutes the
    concatenation. *)
Lemma pull_front {B : Type} (F : string -> list B) (c : string) (L : list string) :
  NoDup L -> (~ In c L -> F c = []) ->
  Permutation (F c ++ flat_map F (filter (differs c) L)) (flat_map F L).
Proof.
  induction L as [|d L IH]; simpl; intros Hnd Habs.
  - rewrite Habs by tauto. constructor.
  - inversion Hnd as [|? ? Hd HL]; subst. unfold differs at 1.
    destruct (String.eqb_spec d c) as [->|Hne]; simpl.
    + now rewrite differs_all.
    + rewrite Permutation_app_swap_app. apply Permutation_app_head.
      apply IH; [exact HL|]. intros H. apply Habs. tauto.
Qed.

Lemma ungroup_permutation (l : list ContentItem) :
  Permutation (ungroup (group_by_category l)) l.
Proof.
  induction l as [|it l IH]; [constructor|].
  rewrite ungroup_cons. constructor.
  rewrite ungroup_unfold in IH. etransitivity; [|exact IH].
  apply (pull_front (fun c => filter (in_category c) l));
    [apply first_seen_NoDup|].
  rewrite first_seen_In. apply filter_absent.
Qed.

Lemma ungroup_contiguous (l : list ContentItem) :
  contiguous l = true -> ungroup (group_by_category l) = l.
Proof.
  induction l as [|it l IH]; [reflexivity|].
  intros H. rewrite ungroup_cons. f_equal.
  destruct l as [|it' l]; [reflexivity|].
  change (contiguous (it :: it' :: l))
    with ((String.eqb (category it) (category it')
           || negb (existsb (in_category (category it)) (it' :: l)))
          && contiguous (it' :: l)) in H.
  apply andb_true_iff in H as [Hadj Hrest].
  specialize (IH Hrest). rewrite ungroup_unfold in IH.
  apply orb_true_iff in Hadj as [Hsame|Hlast].
  - apply String.eqb_eq in Hsame. rewrite Hsame.
    rewrite <- IH at 3. simpl map. simpl first_seen.
    now rewrite differs_head, differs_twice.
  - assert (Habs : ~ In (category it) (map category (it' :: l))).
    { intros Hin. apply in_map_iff in Hin as (x & Ex & Hx).
      apply negb_true_iff in Hlast.
      assert (Hex : existsb (in_category (category it)) (it' :: l) = true).
      { apply existsb_exists. exists x. split; [exact Hx|].
        unfold in_category. now apply String.eqb_eq. }
      congruence. }
    rewrite filter_absent by exact Habs.
    rewrite differs_all by (rewrite first_seen_In; exact Habs).
    exact IH.
Qed.

Lemma existsb_in_category (c : string) (l : list ContentItem) :
  existsb (in_category c) l = true <-> In c (map category l).
Proof.
  rewrite existsb_exists, in_map_iff. unfold in_category.
  split; intros (x & H1 & H2); exists x.
  - apply String.eqb_eq in H2. tauto.
  - rewrite String.eqb_eq. tauto.
Qed.

Lemma ungroup_fixed_contiguous (l : list ContentItem) :
  ungroup (group_by_category l) = l -> contiguous l = true.
Proof.
  induction l as [|it l IH]; [reflexivity|].
  intros H. rewrite ungroup_cons in H. injection H as H.
  destruct l as [|it' l]; [reflexivity|].
  change (contiguous (it :: it' :: l))
    with ((String.eqb (category it) (category it')
           || negb (existsb (in_category (category it)) (it' :: l)))
          && contiguous (it' :: l)).
  rewrite ungroup_unfold in IH.
  destruct (String.eqb_spec (category it) (category it')) as [Hsame|Hdiff].
  - rewrite orb_true_l, andb_true_l. apply IH.
    rewrite Hsame in H. simpl map in *. simpl first_seen in *.
    rewrite differs_head, differs_twice in H. exact H.
  - rewrite orb_false_l.
    assert (Hnone : filter (in_category (category it)) (it' :: l) = []).
    { destruct (filter (in_category (category it)) (it' :: l)) as [|a A] eqn:EA;
        [reflexivity|].
      assert (Ha : In a (filter (in_category (category it)) (it' :: l)))
        by (rewrite EA; now left).
      apply filter_In in Ha as [_ Ha]. unfold in_category in Ha.
      apply String.eqb_eq in Ha.
      simpl in H. injection H as Hhead _. subst a. congruence. }
    assert (Habs : ~ In (category it) (map category (it' :: l))).
    { intros Hin. now apply filter_present in Hin. }
    assert (Hex : existsb (in_category (category it)) (it' :: l) = false).
    { destruct (existsb (in_category (category it)) (it' :: l)) eqn:E;
        [|reflexivity].
      apply existsb_in_category in E. contradiction. }
    rewrite Hex. change (negb false) with true. rewrite andb_true_l. apply IH.
    rewrite Hnone, app_nil_l in H.
    rewrite differs_all in H by (rewrite first_seen_In; exact Habs).
    exact H.
Qed.

End Grouping.

(* ================================================================= *)
(** * The claims *)

Import Content.

(** The Uses page is written out the way grouping would lay it out. *)
Lemma uses_page_is_grouped :
  group_by_category registry = declared_groups.
Proof. reflexivity. Qed.

(** C1, as the code and the spec's own scenario have it: grouping makes
    one group per distinct category, the groups stand in the order in
    which their categories are first seen, each group holds exactly the
    input's items of its category in source order and is not empty, and
    the items of all groups, taken in group order, are a permutation of
    the input; they are the input itself exactly when the items of each
    category stand together in it. *)
Theorem grouping_is_lossless_partition_in_first_seen_order (l : list ContentItem) :
  map name (group_by_category l) = first_seen (map category l)
  /\ NoDup (map name (group_by_category l))
  /\ (forall c, In c (map name (group_by_category l)) <-> In c (map category l))
  /\ (forall g, In g (group_by_category l) ->
        items g = filter (in_category (name g)) l /\ items g <> [])
  /\ Permutation (ungroup (group_by_category l)) l
  /\ (contiguous l = true <-> ungroup (group_by_category l) = l).
Proof.
  assert (Hnames : map name (group_by_category l) = first_seen (map category l)).
  { unfold group_by_category. rewrite map_map. simpl. apply map_id. }
  repeat split.
  - exact Hnames.
  - rewrite Hnames. apply first_seen_NoDup.
  - rewrite Hnames. apply first_seen_In.
  - rewrite Hnames. apply first_seen_In.
  - unfold group_by_category in H. apply in_map_iff in H as (c & <- & _).
    reflexivity.
  - unfold group_by_category in H. apply in_map_iff in H as (c & <- & Hc).
    simpl. apply filter_present. now apply first_seen_In.
  - apply ungroup_permutation.
  - apply ungroup_contiguous.
  - apply ungroup_fixed_contiguous.
Qed.

Lemma grouping_is_lossless_partition_witness :
  contiguous registry = true
  /\ ungroup (group_by_category registry) = registry.
Proof.
  split; [reflexivity|].
  apply (grouping_is_lossless_partition_in_first_seen_order registry).
  reflexivity.
Defined.

(** C1 as stated fails on the spec's scenario: the groups of
    [A/X, B/Y, C/X] are X:[A, C] and Y:[B], whose items in group order
    are A, C, B and not the input A, B, C. *)
Lemma grouping_concatenation_is_not_the_input :
  map (fun g => (name g, map title (items g))) (group_by_category scenario)
    = [("X", ["A"; "C"]); ("Y", ["B"])]
  /\ ungroup (group_by_category scenario) = [item_A; item_C; item_B]
  /\ ungroup (group_by_category scenario) <> scenario.
Proof.
  split; [reflexivity|]. split; [reflexivity|]. discriminate.
Qed.

(** C2: when the props carry an href, the title of the card that [Tool]
    returns is linked to exactly that href, with [target="_blank"] and
    [rel="noopener noreferrer"]; the same holds for the link that
    [SocialLink] returns. *)
Theorem defined_href_is_linked_verbatim_in_isolation (props : object) (h : string) :
  get "href" props = JStr h ->
  (exists link rest,
      elements_of (is_comp "Card.Title") (UsesPage.Tool props) = link :: rest
      /\ get "href" link = JStr h
      /\ get "target" link = JStr "_blank"
      /\ get "rel" link = JStr "noopener noreferrer")
  /\ (exists link,
      elements_of (is_comp "Link") (AboutPage.SocialLink props) = [link]
      /\ get "href" link = JStr h
      /\ get "target" link = JStr "_blank"
      /\ get "rel" link = JStr "noopener noreferrer").
Proof.
  intros Hhref. split.
  - unfold UsesPage.Tool. rewrite Hhref. simpl.
    eexists. eexists. split; [reflexivity|]. repeat split.
  - unfold AboutPage.SocialLink. rewrite Hhref. simpl.
    eexists. split; [reflexivity|]. repeat split.
Qed.

Lemma defined_href_is_linked_witness :
  get "href" (props_of UsesPage.tool_Trello) = JStr "https://trello.com"
  /\ exists link rest,
      elements_of (is_comp "Card.Title")
                  (UsesPage.Tool (props_of UsesPage.tool_Trello)) = link :: rest
      /\ get "href" link = JStr "https://trello.com"
      /\ get "target" link = JStr "_blank"
      /\ get "rel" link = JStr "noopener noreferrer".
Proof.
  split; [reflexivity|].
  apply (defined_href_is_linked_verbatim_in_isolation
           (props_of UsesPage.tool_Trello) "https://trello.com").
  reflexivity.
Defined.

(** On the pages as they are written: every one of the nine cards and
    of the five social links is rendered with its own href, in a new
    tab, with no opener and no referrer. *)
Lemma links_of_the_pages_open_in_isolation :
  (exists tree,
      expand UsesPage.components 15 UsesPage.page = Returned tree
      /\ map (fun o => (get "href" o, get "target" o, get "rel" o))
             (elements_of (is_comp "Card.Title") tree)
         = map (fun it => (get "href" (props_of it), JStr "_blank",
                           JStr "noopener noreferrer"))
               (map (JElem (Comp "Tool"))
                    (elements_of (is_comp "Tool") (UsesPage.Uses []))))
  /\ (exists tree,
      expand AboutPage.components 8 (JArr AboutPage.social_links) = Returned tree
      /\ map (fun o => (get "href" o, get "target" o, get "rel" o))
             (elements_of (is_comp "Link") tree)
         = map (fun it => (get "href" (props_of it), JStr "_blank",
                           JStr "noopener noreferrer"))
               AboutPage.social_links).
Proof.
  split; eexists; (split; [vm_compute; reflexivity|]); vm_compute; reflexivity.
Qed.

(** C4 as the code has it: a props object without a title does not make
    [Tool] fail.  The call raises no error and returns the usual card:
    the heading has [undefined] for content and carries the href as
    given with the usual target and rel, and the description holds the
    children as given.  Rendered to the end, the card comes out
    whenever the description renders, with the description's own
    outcome otherwise. *)
Theorem missing_title_renders_without_error (props : object) :
  get "title" props = JUndefined ->
  invoke UsesPage.components (JElem (Comp "Tool") props)
    = Returned (UsesPage.Tool props)
  /\ is_thrown (invoke UsesPage.components (JElem (Comp "Tool") props)) = false
  /\ (exists heading rest,
      elements_of (is_comp "Card.Title") (UsesPage.Tool props) = heading :: rest
      /\ get "children" heading = JUndefined
      /\ get "href" heading = get "href" props)
  /\ UsesPage.Tool props
     = JElem (Comp "Card")
         [("as", JStr "li");
          ("children",
           JArr [JElem (Comp "Card.Title")
                   [("as", JStr "h3"); ("href", get "href" props);
                    ("target", JStr "_blank");
                    ("rel", JStr "noopener noreferrer");
                    ("children", JUndefined)];
                 JElem (Comp "Card.Description")
                   [("children", get "children" props)]])]
  /\ forall n,
      expand UsesPage.components (5 + n) (JElem (Comp "Tool") props)
      = d <- expand UsesPage.components (S n) (get "children" props) ;;
        Returned
          (JElem (Comp "Card")
             [("as", JStr "li");
              ("children",
               JArr [JElem (Comp "Card.Title")
                       [("as", JStr "h3"); ("href", get "href" props);
                        ("target", JStr "_blank");
                        ("rel", JStr "noopener noreferrer");
                        ("children", JUndefined)];
                     JElem (Comp "Card.Description") [("children", d)]])]).
Proof.
  intros Htitle. split; [reflexivity|]. split; [reflexivity|].
  split; [|split].
  - unfold UsesPage.Tool. rewrite Htitle. simpl.
    eexists. eexists. split; [reflexivity|]. split; reflexivity.
  - unfold UsesPage.Tool. rewrite Htitle. reflexivity.
  - intros n. change (5 + n) with (4 + S n).
    rewrite expand_Tool, Htitle. reflexivity.
Qed.

Lemma missing_title_renders_witness :
  get "title" (omit "title" (props_of UsesPage.tool_Figma)) = JUndefined
  /\ is_thrown (invoke UsesPage.components
                  (JElem (Comp "Tool") (omit "title" (props_of UsesPage.tool_Figma))))
     = false.
Proof.
  split; [reflexivity|].
  apply (missing_title_renders_without_error
           (omit "title" (props_of UsesPage.tool_Figma))).
  reflexivity.
Defined.

(** C4 as stated fails: the Figma entry with its title taken away is
    rendered to the end, without an error, into a card with an empty
    heading. *)
Lemma missing_title_does_not_fail :
  get "title" (omit "title" (props_of UsesPage.tool_Figma)) = JUndefined
  /\ is_thrown (invoke UsesPage.components
                  (JElem (Comp "Tool") (omit "title" (props_of UsesPage.tool_Figma))))
     = false
  /\ is_returned (expand UsesPage.components 5
                    (JElem (Comp "Tool") (omit "title" (props_of UsesPage.tool_Figma))))
     = true.
Proof. repeat split. Qed.

(** C9: two props objects that agree on [title], [href] and [children]
    give the same card, whatever else they hold: [Tool] returns the same
    element, and rendering it to the end gives the same outcome with
    every amount of fuel. *)
Theorem tool_output_depends_on_three_props_only (p q : object) :
  get "title" p = get "title" q ->
  get "href" p = get "href" q ->
  get "children" p = get "children" q ->
  UsesPage.Tool p = UsesPage.Tool q
  /\ invoke UsesPage.components (JElem (Comp "Tool") p)
     = invoke UsesPage.components (JElem (Comp "Tool") q)
  /\ forall fuel,
      expand UsesPage.components fuel (JElem (Comp "Tool") p)
      = expand UsesPage.components fuel (JElem (Comp "Tool") q).
Proof.
  intros Ht Hh Hc.
  assert (E : UsesPage.Tool p = UsesPage.Tool q).
  { unfold UsesPage.Tool. now rewrite Ht, Hh, Hc. }
  split; [exact E|]. split.
  - unfold invoke. simpl. now rewrite E.
  - intros [|n]; [reflexivity|]. rewrite !expand_S. simpl. now rewrite E.
Qed.

Lemma tool_output_depends_on_three_props_witness :
  UsesPage.Tool (props_of UsesPage.tool_PyCharm_Professional)
  = UsesPage.Tool (omit "target" (omit "rel" (props_of UsesPage.tool_PyCharm_Professional)))
  /\ get "target" (props_of UsesPage.tool_PyCharm_Professional) = JStr "_blank"
  /\ get "target" (omit "target" (omit "rel" (props_of UsesPage.tool_PyCharm_Professional)))
     = JUndefined.
Proof.
  split; [|split; reflexivity].
  apply (tool_output_depends_on_three_props_only
           (props_of UsesPage.tool_PyCharm_Professional)
           (omit "target" (omit "rel" (props_of UsesPage.tool_PyCharm_Professional))));
    reflexivity.
Defined.

(** C3 as the modelled layout has it: the page of an article holds the
    author, the date and the title in its header, in that order and as
    they are, and the body as it is for content; a text occurs on the
    page as often as it occurs in these four together.  So the title,
    and likewise the date, occurs on the page exactly once if and only
    if it occurs neither in the other header parts nor in the body. *)
Theorem article_page_holds_title_date_and_body_as_given (a : Articles.Article) :
  Articles.title a <> "" ->
  Articles.date a <> "" ->
  exists p,
    Articles.render_article a = Returned p
    /\ Articles.header p = [("author", JStr (Articles.author a));
                            ("date", JStr (Articles.date a));
                            ("title", JStr (Articles.title a))]
    /\ Articles.content p = Articles.body a
    /\ (forall s,
          Articles.page_occurrences s p
          = count_in s (Articles.author a) + count_in s (Articles.date a)
            + count_in s (Articles.title a)
            + text_occurrences s (Articles.body a))
    /\ (Articles.page_occurrences (Articles.title a) p = 1
        <-> count_in (Articles.title a) (Articles.author a) = 0
            /\ count_in (Articles.title a) (Articles.date a) = 0
            /\ text_occurrences (Articles.title a) (Articles.body a) = 0)
    /\ (Articles.page_occurrences (Articles.date a) p = 1
        <-> count_in (Articles.date a) (Articles.author a) = 0
            /\ count_in (Articles.date a) (Articles.title a) = 0
            /\ text_occurrences (Articles.date a) (Articles.body a) = 0).
Proof.
  intros Htitle Hdate. eexists. split; [reflexivity|].
  split; [reflexivity|]. split; [reflexivity|].
  assert (Hsum : forall s,
             Articles.page_occurrences s
               {| Articles.header := [("author", JStr (Articles.author a));
                                      ("date", JStr (Articles.date a));
                                      ("title", JStr (Articles.title a))];
                  Articles.content := Articles.body a |}
             = count_in s (Articles.author a) + count_in s (Articles.date a)
               + count_in s (Articles.title a)
               + text_occurrences s (Articles.body a)).
  { intros s. unfold Articles.page_occurrences, Articles.slots.
    cbn [Articles.header Articles.content app map list_sum fold_right snd
         text_occurrences]. lia. }
  split; [exact Hsum|]. split.
  - change (Articles.page_occurrences (Articles.title a) _ = 1 <-> _)
      with (Articles.page_occurrences (Articles.title a)
              {| Articles.header := [("author", JStr (Articles.author a));
                                     ("date", JStr (Articles.date a));
                                     ("title", JStr (Articles.title a))];
                 Articles.content := Articles.body a |} = 1
            <-> count_in (Articles.title a) (Articles.author a) = 0
                /\ count_in (Articles.title a) (Articles.date a) = 0
                /\ text_occurrences (Articles.title a) (Articles.body a) = 0).
    rewrite Hsum, (count_in_itself _ Htitle). lia.
  - change (Articles.page_occurrences (Articles.date a) _ = 1 <-> _)
      with (Articles.page_occurrences (Articles.date a)
              {| Articles.header := [("author", JStr (Articles.author a));
                                     ("date", JStr (Articles.date a));
                                     ("title", JStr (Articles.title a))];
                 Articles.content := Articles.body a |} = 1
            <-> count_in (Articles.date a) (Articles.author a) = 0
                /\ count_in (Articles.date a) (Articles.title a) = 0
                /\ text_occurrences (Articles.date a) (Articles.body a) = 0).
    rewrite Hsum, (count_in_itself _ Hdate). lia.
Qed.

Lemma article_page_holds_title_date_and_body_witness :
  Articles.title Articles.screening_article <> ""
  /\ Articles.date Articles.screening_article <> ""
  /\ exists p,
      Articles.render_article Articles.screening_article = Returned p
      /\ Articles.page_occurrences
           (Articles.title Articles.screening_article) p = 1
      /\ Articles.page_occurrences
           (Articles.date Articles.screening_article) p = 1.
Proof.
  split; [discriminate|]. split; [discriminate|].
  destruct (article_page_holds_title_date_and_body_as_given
              Articles.screening_article)
    as (p & Hp & _ & _ & _ & Ht & Hd); [discriminate|discriminate|].
  exists p. split; [exact Hp|]. split.
  - apply Ht. vm_compute. repeat split.
  - apply Hd. vm_compute. repeat split.
Defined.

(** C3 as stated fails: line 69 of the FastAPI article quotes the
    article's title, so a page that carries this line in its body holds
    the title twice, once in the header and once in the body. *)
Lemma article_title_occurs_twice_when_the_body_quotes_it :
  text_occurrences (Articles.title Articles.quoting_article)
                   (Articles.body Articles.quoting_article) = 1
  /\ Articles.render_article Articles.quoting_article
     = Returned
         {| Articles.header := [("author", JStr "Ibrahim Saidi");
                                ("date", JStr "2022-11-04");
                                ("title", JStr "How to Serve AI Models with FastAPI and Docker")];
            Articles.content := JStr Articles.quoting_line |}
  /\ Articles.page_occurrences
       (Articles.title Articles.quoting_article)
       {| Articles.header := [("author", JStr "Ibrahim Saidi");
                              ("date", JStr "2022-11-04");
                              ("title", JStr "How to Serve AI Models with FastAPI and Docker")];
          Articles.content := JStr Articles.quoting_line |} = 2.
Proof.
  split; [vm_compute; reflexivity|]. split; [reflexivity|].
  vm_compute. reflexivity.
Qed.

(** C7: an article with an empty body is rendered, without an error,
    into a page that has the three header parts and a content region
    that is empty. *)
Theorem empty_body_renders_header_and_empty_content (a : Articles.Article) :
  Articles.empty_body (Articles.body a) = true ->
  exists p,
    Articles.render_article a = Returned p
    /\ map fst (Articles.slots p) = ["author"; "date"; "title"; "body"]
    /\ Articles.header p = [("author", JStr (Articles.author a));
                            ("date", JStr (Articles.date a));
                            ("title", JStr (Articles.title a))]
    /\ Articles.empty_body (Articles.content p) = true.
Proof.
  intros Hempty. eexists. split; [reflexivity|].
  split; [reflexivity|]. split; [reflexivity|]. exact Hempty.
Qed.

Lemma empty_body_renders_witness :
  Articles.empty_body (JStr "") = true
  /\ exists p,
      Articles.render_article
        {| Articles.author := "Ibrahim";
           Articles.date := "2022-08-20";
           Articles.title := "Create a Simple Stock Screening App Using Streamlit";
           Articles.description := "Learn to Build a Stock Screening App Using Streamlit and an API";
           Articles.body := JStr "" |} = Returned p
      /\ Articles.empty_body (Articles.content p) = true.
Proof.
  split; [reflexivity|].
  destruct (empty_body_renders_header_and_empty_content
              {| Articles.author := "Ibrahim";
                 Articles.date := "2022-08-20";
                 Articles.title := "Create a Simple Stock Screening App Using Streamlit";
                 Articles.description := "Learn to Build a Stock Screening App Using Streamlit and an API";
                 Articles.body := JStr "" |} eq_refl)
    as (p & Hp & _ & _ & Hc).
  exists p. split; assumption.
Defined.

(** C8: grouping the empty sequence gives the empty sequence. *)
Theorem grouping_nothing_gives_nothing :
  group_by_category [] = [] /\ ungroup (group_by_category []) = [].
Proof. split; reflexivity. Qed.

(** C6: every item of the Uses page has a non-empty title; the names of
    its groups are pairwise different; and the rendered page shows, for
    every amount of fuel from 15 on, the groups and their items in the
    order of the source. *)
Theorem registry_titles_nonempty_groups_ordered_and_unique :
  Forall (fun it => title it <> "") registry
  /\ length registry = 9
  /\ NoDup (map name declared_groups)
  /\ (forall k, rendered_groups (k + 15) = Returned declared_groups)
  /\ Forall (fun meta => exists s, Articles.field "title" meta = JStr s /\ s <> "")
            [Articles.FirstMachineLearningProject.meta;
             Articles.StockScreeningApp.meta;
             Articles.ServeAIModels.meta].
Proof.
  split.
  { apply Forall_forall. intros it Hin.
    assert (H : forallb (fun it => negb (String.eqb (title it) "")) registry = true)
      by reflexivity.
    rewrite forallb_forall in H. specialize (H it Hin).
    apply negb_true_iff in H. now apply String.eqb_neq. }
  split; [reflexivity|]. split.
  { change (map name declared_groups)
      with ["Workstation"; "Development tools"; "Design"; "Productivity"].
    repeat constructor; simpl; intuition discriminate. }
  split;
    [|repeat constructor; eexists; (split; [reflexivity|discriminate])].
  intros k. unfold rendered_groups.
  assert (E : exists tree,
             expand UsesPage.components 15 UsesPage.page = Returned tree
             /\ map group_of_rendered_section (elements_of (is_comp "Section") tree)
                = declared_groups).
  { eexists. split; [vm_compute; reflexivity|]. vm_compute. reflexivity. }
  destruct E as (tree & Htree & Hgroups).
  rewrite (expand_enough _ k _ _ _ Htree). simpl. now rewrite Hgroups.
Qed.

(** C10: the Uses page has four tool sections, titled Workstation,
    Development tools, Design and Productivity in that order, holding
    nine tools; rendered with any amount of fuel from 15 on it shows
    four sections under the same titles; and neither the page nor what
    it renders to holds the title or the text of anything in the
    commented-out Books section. *)
Theorem uses_page_renders_four_sections_and_no_books :
  map (get "title") (elements_of (is_comp "ToolsSection") (UsesPage.Uses []))
    = [JStr "Workstation"; JStr "Development tools"; JStr "Design"; JStr "Productivity"]
  /\ length (elements_of (is_comp "Tool") (UsesPage.Uses [])) = 9
  /\ forallb (fun s => negb (mentions s (UsesPage.Uses []))) UsesPage.commented_out = true
  /\ forall k, exists tree,
      expand UsesPage.components (k + 15) UsesPage.page = Returned tree
      /\ map (get "title") (elements_of (is_comp "Section") tree)
         = [JStr "Workstation"; JStr "Development tools"; JStr "Design"; JStr "Productivity"]
      /\ length (elements_of (is_comp "Card") tree) = 9
      /\ forallb (fun s => negb (mentions s tree)) UsesPage.commented_out = true.
Proof.
  split; [reflexivity|]. split; [reflexivity|]. split; [vm_compute; reflexivity|].
  intros k.
  assert (E : exists tree,
             expand UsesPage.components 15 UsesPage.page = Returned tree
             /\ map (get "title") (elements_of (is_comp "Section") tree)
                = [JStr "Workstation"; JStr "Development tools"; JStr "Design"; JStr "Productivity"]
             /\ length (elements_of (is_comp "Card") tree) = 9
             /\ forallb (fun s => negb (mentions s tree)) UsesPage.commented_out = true).
  { eexists. split; [vm_compute; reflexivity|].
    split; [vm_compute; reflexivity|]. split; vm_compute; reflexivity. }
  destruct E as (tree & Htree & Hrest).
  exists tree. split; [|exact Hrest].
  now apply expand_enough.
Qed.

(* ================================================================= *)
(** * Further properties of the components *)

(** ** Objects, once more *)

Lemma has_key_In (k : string) (o : object) :
  has_key k o = true <-> In k (map fst o).
Proof.
  unfold has_key. rewrite existsb_exists. split.
  - intros (x & Hx & E). apply String.eqb_eq in E. now subst.
  - intros H. exists k. split; [exact H|apply String.eqb_refl].
Qed.

Lemma has_key_false (k : string) (o : object) :
  has_key k o = false <-> ~ In k (map fst o).
Proof.
  rewrite <- has_key_In. destruct (has_key k o); split; intros; congruence.
Qed.

Lemma get_absent (k : string) (o : object) :
  ~ In k (map fst o) -> get k o = JUndefined.
Proof.
  induction o as [|[k' v] o IH]; simpl; intros H; [reflexivity|].
  destruct (String.eqb_spec k k') as [->|_]; [tauto|]. apply IH. tauto.
Qed.

Lemma set_fresh (k : string) (v : jsval) (o : object) :
  ~ In k (map fst o) -> set k v o = o ++ [(k, v)].
Proof.
  induction o as [|[k' v'] o IH]; simpl; intros H; [reflexivity|].
  destruct (String.eqb_spec k k') as [->|_]; [tauto|].
  f_equal. apply IH. tauto.
Qed.

Lemma set_keys (k : string) (v : jsval) (o : object) :
  In k (map fst o) -> map fst (set k v o) = map fst o.
Proof.
  induction o as [|[k' v'] o IH]; simpl; intros H; [tauto|].
  destruct (String.eqb_spec k k') as [->|Hne]; simpl; [reflexivity|].
  f_equal. apply IH. destruct H; congruence.
Qed.

Lemma set_well_formed (k : string) (v : jsval) (o : object) :
  well_formed o -> well_formed (set k v o).
Proof.
  unfold well_formed. intros H.
  destruct (in_dec string_dec k (map fst o)) as [Hin|Hout].
  - now rewrite set_keys.
  - rewrite set_fresh, map_app by exact Hout. simpl.
    apply NoDup_app; [exact H|repeat constructor; simpl; tauto|].
    intros x Hx [<-|[]]. contradiction.
Qed.

(** Spreading an object into one that shares no key with it appends
    it. *)
Lemma spread_disjoint (src dst : object) :
  well_formed (dst ++ src) -> spread src dst = dst ++ src.
Proof.
  unfold well_formed, spread. revert dst.
  induction src as [|[k v] src IH]; simpl; intros dst H.
  - now rewrite app_nil_r.
  - assert (Hk : ~ In k (map fst dst)).
    { rewrite map_app in H. simpl in H. apply NoDup_remove_2 in H.
      intros Hin. apply H. apply in_or_app. now left. }
    rewrite set_fresh by exact Hk.
    rewrite IH; rewrite <- app_assoc; [reflexivity|exact H].
Qed.

(** The general rule of a spread: the keys of the source win, the
    others are read from the target. *)
Lemma get_spread (k : string) (src dst : object) :
  well_formed src ->
  get k (spread src dst) = if has_key k src then get k src else get k dst.
Proof.
  unfold well_formed, spread. revert dst.
  induction src as [|[k' v] src IH]; simpl; intros dst H; [reflexivity|].
  inversion H as [|? ? Hk' Hsrc]; subst.
  rewrite IH by exact Hsrc. unfold has_key. simpl.
  destruct (String.eqb_spec k k') as [->|Hne]; simpl.
  - fold (has_key k' src).
    replace (has_key k' src) with false
      by (symmetry; now apply has_key_false).
    apply get_set_same.
  - fold (has_key k src). destruct (has_key k src); [reflexivity|].
    now apply get_set_other.
Qed.

Lemma omit_keys (k : string) (o : object) :
  ~ In k (map fst (omit k o)).
Proof.
  unfold omit. rewrite in_map_iff. intros ([k' v] & E & Hin).
  simpl in E. subst k'. apply filter_In in Hin as [_ Hin].
  simpl in Hin. now rewrite String.eqb_refl in Hin.
Qed.

Lemma omit_well_formed (k : string) (o : object) :
  well_formed o -> well_formed (omit k o).
Proof.
  unfold well_formed, omit. induction o as [|[k' v] o IH]; simpl; intros H;
    [constructor|].
  inversion H as [|? ? Hk' Ho]; subst.
  destruct (String.eqb k' k); simpl; [now apply IH|].
  constructor; [|now apply IH].
  rewrite in_map_iff. intros (x & E & Hin). apply filter_In in Hin as [Hin _].
  apply Hk'. rewrite <- E. now apply in_map.
Qed.

Lemma omit_absent (k : string) (o : object) :
  ~ In k (map fst o) -> omit k o = o.
Proof.
  unfold omit. induction o as [|[k' v] o IH]; simpl; intros H; [reflexivity|].
  destruct (String.eqb_spec k' k) as [->|_]; [tauto|].
  simpl. f_equal. apply IH. tauto.
Qed.

Lemma omit_set_fresh (k : string) (v : jsval) (o : object) :
  ~ In k (map fst o) -> omit k (set k v o) = o.
Proof.
  intros H. rewrite set_fresh by exact H. unfold omit.
  rewrite filter_app. simpl. rewrite String.eqb_refl. simpl.
  rewrite app_nil_r. now apply omit_absent.
Qed.

Lemma get_omit_other (k k' : string) (o : object) :
  k <> k' -> get k (omit k' o) = get k o.
Proof.
  intros Hne. unfold omit. induction o as [|[k0 v] o IH]; simpl; [reflexivity|].
  destruct (String.eqb_spec k0 k') as [->|Hne0]; simpl.
  - apply String.eqb_neq in Hne. now rewrite Hne.
  - now rewrite IH.
Qed.

(** ** Rendering, step by step *)

Lemma mapM_unchanged {A : Type} (f : A -> outcome A) (l : list A) :
  (forall a, In a l -> f a = Returned a) -> mapM f l = Returned l.
Proof.
  induction l as [|a l IH]; simpl; intros H; [reflexivity|].
  rewrite (H a) by now left. simpl. rewrite IH by auto. reflexivity.
Qed.

Lemma mapM_map {A B : Type} (f : A -> outcome B) (g : A -> B) (l : list A) :
  (forall a, In a l -> f a = Returned (g a)) -> mapM f l = Returned (map g l).
Proof.
  induction l as [|a l IH]; simpl; intros H; [reflexivity|].
  rewrite (H a) by now left. simpl. rewrite IH by auto. reflexivity.
Qed.

Lemma mapM_last {A : Type} (f : A -> outcome A) (l : list A) (x : A) :
  (forall a, In a l -> f a = Returned a) ->
  mapM f (l ++ [x]) = y <- f x ;; Returned (l ++ [y]).
Proof.
  induction l as [|a l IH]; simpl; intros H.
  - destruct (f x); reflexivity.
  - rewrite (H a) by now left. simpl. rewrite IH by auto.
    destruct (f x); reflexivity.
Qed.

Lemma expand_plain (components : string -> option (object -> jsval))
      (n : nat) (v : jsval) :
  plain v = true -> expand components (S n) v = Returned v.
Proof. destruct v; simpl; intros H; (reflexivity || discriminate). Qed.

(** ** [ToolsSection] and [Tool] *)

(** The element [ToolsSection] returns, written out. *)
Lemma ToolsSection_shape (props : object) :
  well_formed props ->
  UsesPage.ToolsSection props
  = JElem (Comp "Section")
      (omit "children" props
       ++ [("children",
            JElem (Host "ul")
              [("role", JStr "list");
               ("className", JStr "space-y-16");
               ("children", get "children" props)])]).
Proof.
  intros Hwf. unfold UsesPage.ToolsSection, jsx.
  rewrite spread_disjoint by (simpl; now apply omit_well_formed).
  simpl app. rewrite set_fresh by apply omit_keys. reflexivity.
Qed.

(** One round of rendering at a [ToolsSection]. *)
Lemma expand_ToolsSection (props : object) (n : nat) :
  well_formed props ->
  expand UsesPage.components (3 + n) (JElem (Comp "ToolsSection") props)
  = c <- expand UsesPage.components n (get "children" props) ;;
    Returned
      (JElem (Comp "Section")
         (omit "children" props
          ++ [("children",
               JElem (Host "ul")
                 [("role", JStr "list");
                  ("className", JStr "space-y-16");
                  ("children", c)])])).
Proof.
  intros Hwf. change (3 + n) with (S (S (S n))).
  rewrite expand_S.
  change (UsesPage.components "ToolsSection") with (Some UsesPage.ToolsSection).
  cbv iota. rewrite ToolsSection_shape by exact Hwf.
  rewrite expand_S.
  change (UsesPage.components "Section") with (@None (object -> jsval)).
  cbv iota. unfold expand_inside at 1.
  rewrite mapM_last.
  - cbn [fst snd]. simpl.
    destruct (expand UsesPage.components n (get "children" props)); reflexivity.
  - intros [k v] Hin. simpl fst.
    destruct (String.eqb_spec k "children") as [->|_]; [|reflexivity].
    exfalso. apply (omit_keys "children" props).
    apply in_map_iff. now exists ("children", v).
Qed.

(** A tool whose title and description are plain values renders, with
    five units of fuel or more, to the very card [Tool] returns. *)
Lemma tool_renders_to_its_card (props : object) (n : nat) :
  plain (get "title" props) = true ->
  plain (get "children" props) = true ->
  expand UsesPage.components (5 + n) (JElem (Comp "Tool") props)
  = Returned (UsesPage.Tool props).
Proof.
  intros Ht Hd. change (5 + n) with (4 + S n).
  rewrite expand_Tool.
  now rewrite !expand_plain.
Qed.

(** What [jsx] stores for the children written between the tags. *)
Lemma jsx_children (ty : etype) (attrs : object) (cs : list jsval) :
  ~ In "children" (map fst attrs) ->
  get "children" (props_of (jsx ty attrs cs)) = children_value cs
  /\ omit "children" (props_of (jsx ty attrs cs)) = attrs.
Proof.
  intros H. destruct cs as [|c [|c' cs]]; simpl.
  - split; [now apply get_absent|now apply omit_absent].
  - split; [apply get_set_same|now apply omit_set_fresh].
  - split; [apply get_set_same|now apply omit_set_fresh].
Qed.

Lemma jsx_well_formed (ty : etype) (attrs : object) (cs : list jsval) :
  well_formed attrs -> well_formed (props_of (jsx ty attrs cs)).
Proof.
  intros H. destruct cs as [|c [|c' cs]]; simpl;
    [exact H|now apply set_well_formed..].
Qed.

(** [ToolsSection] hands every prop but [children] on to [Section],
    unchanged and in order, and gives it one child: a list element with
    the fixed role and class, holding the children it was given.  A
    [role] or [className] among the props goes to [Section], never to
    the list. *)
Theorem tools_section_forwards_all_but_children (props : object) :
  well_formed props ->
  UsesPage.ToolsSection props
  = JElem (Comp "Section")
      (omit "children" props
       ++ [("children",
            JElem (Host "ul")
              [("role", JStr "list");
               ("className", JStr "space-y-16");
               ("children", get "children" props)])]).
Proof. exact (ToolsSection_shape props). Qed.

Lemma tools_section_forwards_witness :
  well_formed (props_of UsesPage.section_Design)
  /\ get "title" (props_of (UsesPage.ToolsSection (props_of UsesPage.section_Design)))
     = JStr "Design".
Proof.
  assert (Hwf : well_formed (props_of UsesPage.section_Design)).
  { unfold well_formed. simpl. repeat constructor; simpl; intuition discriminate. }
  split; [exact Hwf|].
  rewrite (tools_section_forwards_all_but_children _ Hwf). reflexivity.
Defined.

(** Rendering a [ToolsSection] is rendering its children and wrapping
    the result: with three units of fuel more than the children need,
    the section returns when they return, and stops with their error or
    their lack of fuel when they do not. *)
Theorem tools_section_renders_as_its_children_do (props : object) (n : nat) :
  well_formed props ->
  expand UsesPage.components (3 + n) (JElem (Comp "ToolsSection") props)
  = c <- expand UsesPage.components n (get "children" props) ;;
    Returned
      (JElem (Comp "Section")
         (omit "children" props
          ++ [("children",
               JElem (Host "ul")
                 [("role", JStr "list");
                  ("className", JStr "space-y-16");
                  ("children", c)])])).
Proof. exact (expand_ToolsSection props n). Qed.

Lemma tools_section_renders_witness :
  expand UsesPage.components 4
    (JElem (Comp "ToolsSection")
       [("title", JStr "Design"); ("children", JStr "nothing yet")])
  = Returned
      (JElem (Comp "Section")
         [("title", JStr "Design");
          ("children",
           JElem (Host "ul")
             [("role", JStr "list");
              ("className", JStr "space-y-16");
              ("children", JStr "nothing yet")])]).
Proof.
  change 4 with (3 + 1).
  rewrite (tools_section_renders_as_its_children_do
             [("title", JStr "Design"); ("children", JStr "nothing yet")] 1).
  - reflexivity.
  - unfold well_formed. simpl. repeat constructor; simpl; intuition discriminate.
Defined.

(** Rendering a [Tool] renders its title, then its description, and
    puts both into the card: with four units of fuel more than these two
    need, the card is returned when both return; an error in the title
    comes before one in the description. *)
Theorem tool_renders_title_then_description (props : object) (n : nat) :
  expand UsesPage.components (4 + n) (JElem (Comp "Tool") props)
  = t <- expand UsesPage.components n (get "title" props) ;;
    d <- expand UsesPage.components n (get "children" props) ;;
    Returned
      (JElem (Comp "Card")
         [("as", JStr "li");
          ("children",
           JArr [JElem (Comp "Card.Title")
                   [("as", JStr "h3"); ("href", get "href" props);
                    ("target", JStr "_blank");
                    ("rel", JStr "noopener noreferrer");
                    ("children", t)];
                 JElem (Comp "Card.Description") [("children", d)]])]).
Proof. exact (expand_Tool props n). Qed.

(** A section of tools renders to one card per tool, in the order in
    which the tools are written, whatever their number: none, one or
    several.  Nine units of fuel are enough; the attributes of the
    section reach [Section] unchanged. *)
Theorem section_renders_one_card_per_tool
    (attrs : object) (tools : list object) (n : nat) :
  well_formed attrs ->
  has_key "children" attrs = false ->
  Forall (fun p => plain (get "title" p) = true
                   /\ plain (get "children" p) = true) tools ->
  expand UsesPage.components (9 + n)
    (jsx (Comp "ToolsSection") attrs (map (JElem (Comp "Tool")) tools))
  = Returned
      (jsx (Comp "Section") attrs
         [jsx (Host "ul")
            [("role", JStr "list"); ("className", JStr "space-y-16")]
            [children_value (map UsesPage.Tool tools)]]).
Proof.
  intros Hwf Hkey Hplain. apply has_key_false in Hkey.
  pose proof (jsx_children (Comp "ToolsSection") attrs
                (map (JElem (Comp "Tool")) tools) Hkey) as [Hc Ho].
  pose proof (jsx_well_formed (Comp "ToolsSection") attrs
                (map (JElem (Comp "Tool")) tools) Hwf) as Hwf'.
  unfold jsx at 1. unfold jsx in Hc, Ho, Hwf'. simpl props_of in *.
  change (9 + n) with (3 + (6 + n)).
  rewrite expand_ToolsSection by exact Hwf'.
  rewrite Hc, Ho.
  assert (Hkids : expand UsesPage.components (6 + n)
                    (children_value (map (JElem (Comp "Tool")) tools))
                  = Returned (children_value (map UsesPage.Tool tools))).
  { destruct tools as [|p [|q tools]].
    - reflexivity.
    - inversion Hplain as [|? ? [Ht Hd] _]; subst. simpl children_value.
      change (6 + n) with (5 + S n). now apply tool_renders_to_its_card.
    - change (children_value (map (JElem (Comp "Tool")) (p :: q :: tools)))
        with (JArr (map (JElem (Comp "Tool")) (p :: q :: tools))).
      change (children_value (map UsesPage.Tool (p :: q :: tools)))
        with (JArr (map UsesPage.Tool (p :: q :: tools))).
      change (6 + n) with (S (5 + n)). rewrite expand_S.
      rewrite mapM_map with (g := fun el => UsesPage.Tool (props_of el)).
      + now rewrite map_map.
      + intros el Hin. apply in_map_iff in Hin as (x & <- & Hx).
        rewrite Forall_forall in Hplain. destruct (Hplain x Hx) as [Ht Hd].
        now apply tool_renders_to_its_card. }
  rewrite Hkids. simpl bind. unfold jsx.
  rewrite (set_fresh "children" _ attrs) by exact Hkey. reflexivity.
Qed.

Lemma section_renders_one_card_per_tool_witness :
  expand UsesPage.components 9 UsesPage.section_Design
  = Returned
      (jsx (Comp "Section") [("title", JStr "Design")]
         [jsx (Host "ul")
            [("role", JStr "list"); ("className", JStr "space-y-16")]
            [JArr [UsesPage.Tool (props_of UsesPage.tool_Figma);
                   UsesPage.Tool (props_of UsesPage.tool_MidJourney_AI)]]]).
Proof.
  apply (section_renders_one_card_per_tool
           [("title", JStr "Design")]
           [props_of UsesPage.tool_Figma; props_of UsesPage.tool_MidJourney_AI]
           0).
  - unfold well_formed. simpl. repeat constructor. simpl. tauto.
  - reflexivity.
  - repeat constructor.
Defined.

(** ** [SocialLink] and [MailIcon] *)

(** A [SocialLink] that is given no icon, or something that is neither
    a component nor a tag name, cannot be rendered: with at least five
    units of fuel the rendering stops with an error, and with no amount
    of fuel does it return. *)
Theorem social_link_without_icon_is_an_error (props : object) (n : nat) :
  element_type (get "icon" props) = Invalid ->
  expand AboutPage.components (5 + n) (JElem (Comp "SocialLink") props)
  = Thrown "Element type is invalid"
  /\ forall fuel,
      is_returned (expand AboutPage.components fuel (JElem (Comp "SocialLink") props))
      = false.
Proof.
  intros Hicon.
  assert (Hthrown : forall m,
             expand AboutPage.components (5 + m) (JElem (Comp "SocialLink") props)
             = Thrown "Element type is invalid").
  { intros m. change (5 + m) with (S (S (S (S (S m))))). rewrite expand_S.
    change (AboutPage.components "SocialLink") with (Some AboutPage.SocialLink).
    cbv iota. unfold AboutPage.SocialLink. rewrite Hicon. reflexivity. }
  split; [apply Hthrown|].
  intros fuel.
  destruct (expand AboutPage.components fuel (JElem (Comp "SocialLink") props))
    as [r| |] eqn:E; try reflexivity.
  apply (expand_enough _ 5) in E. rewrite Hthrown in E. discriminate.
Qed.

Lemma social_link_without_icon_witness :
  expand AboutPage.components 5
    (JElem (Comp "SocialLink") [("href", JStr "https://github.com/Saidiibrahim")])
  = Thrown "Element type is invalid".
Proof.
  apply (social_link_without_icon_is_an_error
           [("href", JStr "https://github.com/Saidiibrahim")] 0).
  reflexivity.
Defined.

(** What [clsx] makes of a class that is a string or absent, and
    [flex]. *)
Lemma clsx_with_flex (c : option string) :
  clsx [text_value c; JStr "flex"]
  = match c with
    | Some s => if String.eqb s "" then "flex" else (s ++ " flex")%string
    | None => "flex"
    end.
Proof.
  destruct c as [s|]; [|reflexivity].
  unfold clsx, text_value. simpl flat_map.
  destruct (String.eqb s ""); reflexivity.
Qed.

(** A [SocialLink] with an imported icon, a string for an href, and
    for text and class a string or nothing, renders, with six units of
    fuel or more, to a list item that holds one link: the link has the
    href as given, opens in a new tab with no opener and no referrer,
    and holds the icon first and the text, in a span, second.  The
    class of the list item is the given class followed by [flex]. *)
Theorem social_link_with_imported_icon_renders
    (props : object) (name h : string) (text c : option string) (n : nat) :
  get "icon" props = JRef name ->
  AboutPage.components name = None ->
  get "href" props = JStr h ->
  get "children" props = text_value text ->
  get "className" props = text_value c ->
  expand AboutPage.components (6 + n) (JElem (Comp "SocialLink") props)
  = Returned
      (JElem (Host "li")
         [("className",
           JStr match c with
                | Some s => if String.eqb s "" then "flex" else (s ++ " flex")%string
                | None => "flex"
                end);
          ("children",
           JElem (Comp "Link")
             [("href", JStr h);
              ("target", JStr "_blank");
              ("rel", JStr "noopener noreferrer");
              ("className", JStr "group flex text-sm font-medium text-zinc-800 transition hover:text-teal-500 dark:text-zinc-200 dark:hover:text-teal-500");
              ("children",
               JArr [JElem (Comp name)
                       [("className", JStr "h-6 w-6 flex-none fill-zinc-500 transition group-hover:fill-teal-500")];
                     JElem (Host "span")
                       [("className", JStr "ml-4");
                        ("children", text_value text)]])])]).
Proof.
  intros Hicon Hnone Hhref Htext Hclass.
  change (6 + n) with (S (S (S (S (S (S n)))))). rewrite expand_S.
  change (AboutPage.components "SocialLink") with (Some AboutPage.SocialLink).
  cbv iota. unfold AboutPage.SocialLink. cbv zeta.
  rewrite Hicon, Hhref, Htext, Hclass, clsx_with_flex.
  destruct text; simpl; rewrite Hnone; reflexivity.
Qed.

Lemma social_link_with_imported_icon_witness :
  is_returned
    (expand AboutPage.components 6
       (JElem (Comp "SocialLink")
          [("href", JStr "https://twitter.com/IbrahimSaidi94");
           ("icon", JRef "TwitterIcon");
           ("children", JStr "Follow on Twitter")])) = true.
Proof.
  change 6 with (6 + 0).
  rewrite (social_link_with_imported_icon_renders
             [("href", JStr "https://twitter.com/IbrahimSaidi94");
              ("icon", JRef "TwitterIcon");
              ("children", JStr "Follow on Twitter")]
             "TwitterIcon" "https://twitter.com/IbrahimSaidi94"
             (Some "Follow on Twitter") None 0
             eq_refl eq_refl eq_refl eq_refl eq_refl).
  reflexivity.
Defined.

(** The class of the list item: the class the caller gives, if any,
    with [flex] after it; [flex] alone when the caller gives none or an
    empty one. *)
Theorem social_link_class_ends_in_flex (props : object) (c : option string) :
  get "className" props
  = match c with Some s => JStr s | None => JUndefined end ->
  get "className" (props_of (AboutPage.SocialLink props))
  = JStr match c with
         | Some s => if String.eqb s "" then "flex" else (s ++ " flex")%string
         | None => "flex"
         end.
Proof.
  intros H.
  change (get "className" (props_of (AboutPage.SocialLink props)))
    with (JStr (clsx [get "className" props; JStr "flex"])).
  rewrite H.
  destruct c as [s|]; [|reflexivity].
  unfold clsx. simpl flat_map.
  destruct (String.eqb s ""); reflexivity.
Qed.

Lemma social_link_class_witness :
  get "className"
      (props_of (AboutPage.SocialLink [("className", JStr "mt-4")]))
  = JStr "mt-4 flex".
Proof.
  apply (social_link_class_ends_in_flex [("className", JStr "mt-4")] (Some "mt-4")).
  reflexivity.
Defined.

(** [MailIcon] draws the same path whatever it is given, and lets the
    caller's props win over its two defaults: every prop of the caller
    but [children] is on the [svg] element as given, [viewBox] and
    [aria-hidden] keep their defaults only when the caller does not name
    them, and the caller's [children] are dropped for the path. *)
Theorem mail_icon_props_override_defaults (props : object) (k : string) :
  well_formed props ->
  k <> "children" ->
  get k (props_of (AboutPage.MailIcon props))
  = (if has_key k props then get k props
     else get k [("viewBox", JStr "0 0 24 24"); ("aria-hidden", JStr "true")])
  /\ get "children" (props_of (AboutPage.MailIcon props))
     = JElem (Host "path")
         [("fillRule", JStr "evenodd");
          ("d", JStr "M6 5a3 3 0 0 0-3 3v8a3 3 0 0 0 3 3h12a3 3 0 0 0 3-3V8a3 3 0 0 0-3-3H6Zm.245 2.187a.75.75 0 0 0-.99 1.126l6.25 5.5a.75.75 0 0 0 .99 0l6.25-5.5a.75.75 0 0 0-.99-1.126L12 12.251 6.245 7.187Z")].
Proof.
  intros Hwf Hk. unfold AboutPage.MailIcon, jsx. simpl props_of. split.
  - rewrite get_set_other by exact Hk. now apply get_spread.
  - apply get_set_same.
Qed.

Lemma mail_icon_props_override_witness :
  get "viewBox"
      (props_of (AboutPage.MailIcon
                   [("viewBox", JStr "0 0 48 48"); ("children", JStr "x")]))
  = JStr "0 0 48 48".
Proof.
  apply (mail_icon_props_override_defaults
           [("viewBox", JStr "0 0 48 48"); ("children", JStr "x")] "viewBox").
  - unfold well_formed. simpl. repeat constructor; simpl; intuition discriminate.
  - discriminate.
Defined.

(** A [SocialLink] whose icon is [MailIcon], with a string for an href
    and for text and class a string or nothing, renders the icon in
    place: the link holds the [svg] with its default view box, hidden
    from assistive technology, under the icon class [SocialLink] gives
    it, and then the text. *)
Theorem social_link_with_mail_icon_renders
    (props : object) (h : string) (text c : option string) (n : nat) :
  get "icon" props = JRef "MailIcon" ->
  get "href" props = JStr h ->
  get "children" props = text_value text ->
  get "className" props = text_value c ->
  expand AboutPage.components (7 + n) (JElem (Comp "SocialLink") props)
  = Returned
      (JElem (Host "li")
         [("className",
           JStr match c with
                | Some s => if String.eqb s "" then "flex" else (s ++ " flex")%string
                | None => "flex"
                end);
          ("children",
           JElem (Comp "Link")
             [("href", JStr h);
              ("target", JStr "_blank");
              ("rel", JStr "noopener noreferrer");
              ("className", JStr "group flex text-sm font-medium text-zinc-800 transition hover:text-teal-500 dark:text-zinc-200 dark:hover:text-teal-500");
              ("children",
               JArr [JElem (Host "svg")
                       [("viewBox", JStr "0 0 24 24");
                        ("aria-hidden", JStr "true");
                        ("className", JStr "h-6 w-6 flex-none fill-zinc-500 transition group-hover:fill-teal-500");
                        ("children", get "children" (props_of (AboutPage.MailIcon [])))];
                     JElem (Host "span")
                       [("className", JStr "ml-4");
                        ("children", text_value text)]])])]).
Proof.
  intros Hicon Hhref Htext Hclass.
  change (7 + n) with (S (S (S (S (S (S (S n))))))). rewrite expand_S.
  change (AboutPage.components "SocialLink") with (Some AboutPage.SocialLink).
  cbv iota. unfold AboutPage.SocialLink. cbv zeta.
  rewrite Hicon, Hhref, Htext, Hclass, clsx_with_flex.
  destruct text; reflexivity.
Qed.

Lemma social_link_with_mail_icon_witness :
  is_returned
    (expand AboutPage.components 7
       (JElem (Comp "SocialLink")
          [("href", JStr "mailto:ibrahim.aka.ajax@gmail.com");
           ("icon", JRef "MailIcon");
           ("className", JStr "mt-8 border-t border-zinc-100 pt-8 dark:border-zinc-700/40");
           ("children", JStr "ibrahim.aka.ajax@gmail.com")])) = true.
Proof.
  change 7 with (7 + 0).
  rewrite (social_link_with_mail_icon_renders
             [("href", JStr "mailto:ibrahim.aka.ajax@gmail.com");
              ("icon", JRef "MailIcon");
              ("className", JStr "mt-8 border-t border-zinc-100 pt-8 dark:border-zinc-700/40");
              ("children", JStr "ibrahim.aka.ajax@gmail.com")]
             "mailto:ibrahim.aka.ajax@gmail.com"
             (Some "ibrahim.aka.ajax@gmail.com")
             (Some "mt-8 border-t border-zinc-100 pt-8 dark:border-zinc-700/40") 0
             eq_refl eq_refl eq_refl eq_refl).
  reflexivity.
Defined.

(** ** The default export of an article *)

(** The element an article page returns carries every prop the page is
    called with, as given, and the file's [meta] besides; a [meta] among
    the page's props replaces the file's, since the spread comes
    last. *)
Theorem default_export_forwards_props_over_meta
    (meta : jsval) (props : object) (k : string) :
  well_formed props ->
  get k (props_of (Articles.default_export meta props))
  = if has_key k props then get k props
    else if String.eqb k "meta" then meta else JUndefined.
Proof.
  intros Hwf. unfold Articles.default_export, jsx. simpl props_of.
  rewrite get_spread by exact Hwf. reflexivity.
Qed.

Lemma default_export_forwards_witness :
  get "meta"
      (props_of (Articles.default_export Articles.ServeAIModels.meta
                   [("children", JStr "FastAPI is a modern web framework")]))
  = Articles.ServeAIModels.meta.
Proof.
  apply (default_export_forwards_props_over_meta
           Articles.ServeAIModels.meta
           [("children", JStr "FastAPI is a modern web framework")] "meta").
  unfold well_formed. simpl. repeat constructor. simpl. tauto.
Defined.
